(** * g.gui.rdigit: the standalone raster digitizer launcher

    A shallow embedding of [gui/wxpython/rdigit/g.gui.rdigit.py].

    The script parses four options, resolves raster names in the current
    mapset, chooses the rendering backend, builds a frame holding an
    [RDigitMapDisplay] panel and enters the toolkit's event loop.  Every
    statement of the script that touches the host (GRASS scripting library,
    wxPython, the wxGUI panels) is a call recorded, with its arguments, in a
    chronological log; the two pieces of data whose meaning the script relies
    on, [os.environ] and the layer list of the panel's map object, are kept
    as state next to the log. *)

From Stdlib Require Import ZArith QArith_base.
From stdpp Require Import base strings list gmap.

Local Close Scope Q_scope.
Local Open Scope Z_scope.

(** ** Python values *)

(** Truth value of a [str]: only the empty string is false.  An option that
    was not given on the command line has the empty answer, and so has the
    ["fullname"] entry of a failed [find_file]. *)
Definition truthy (s : string) : bool := negb (String.eqb s "").

(** [a or b] on strings. *)
Definition py_or (a b : string) : string := if truthy a then a else b.

(** ** The option block (lines 30-55 of the script) *)

(** The answers [gs.parser()] hands back in the [options] dictionary. *)
Record Options := mkOptions {
  create : string;   (* G_OPT_R_OUTPUT, key: create, required: no *)
  base : string;     (* G_OPT_R_BASE, required: no *)
  type : string;     (* G_OPT_R_TYPE, answer: CELL, required: no *)
  edit : string      (* G_OPT_R_INPUT, key: edit, required: no *)
}.

Module Parser.

Inductive key := k_create | k_base | k_type | k_edit.

Inductive rule :=
| exclusive (ks : list key)
| required (ks : list key)
| requires (ks : list key).

(** The [%rules] section, in the order of the script. *)
Definition rules : list rule :=
  [ exclusive [k_create; k_edit];
    required [k_create; k_edit];
    requires [k_base; k_create] ].

Definition answer (o : Options) (k : key) : string :=
  match k with
  | k_create => create o
  | k_base => base o
  | k_type => type o
  | k_edit => edit o
  end.

Definition is_present (o : Options) (k : key) : bool := truthy (answer o k).

Definition count_present (o : Options) (ks : list key) : nat :=
  length (List.filter (is_present o) ks).

(** Modelled from the spec: the rule checker of the host's option parser,
    which is not part of this script.  Section 6 reads the three rules as
    "Mutually exclusive: create vs edit; one is required; base requires
    create": of an [exclusive] list at most one option may be given, of a
    [required] list at least one must be given, and when the first option
    of a [requires] list is given, one of the others must be given too. *)
Definition check_rule (o : Options) (r : rule) : bool :=
  match r with
  | exclusive ks => (count_present o ks <=? 1)%nat
  | required ks => (1 <=? count_present o ks)%nat
  | requires [] => true
  | requires (k :: ks) =>
      implb (is_present o k) (1 <=? count_present o ks)%nat
  end.

Definition failed_rules (o : Options) : list rule :=
  List.filter (λ r, negb (check_rule o r)) rules.

Definition validate (o : Options) : bool :=
  match failed_rules o with [] => true | _ :: _ => false end.

End Parser.

(** ** Host objects *)

(** A layer descriptor, the keyword arguments of [Map.AddLayer]. *)
Module Layer.
Record t := mk {
  ltype : string;
  name : string;
  command : list string;
  active : bool;
  hidden : bool;
  opacity : Q;
  render : bool
}.
End Layer.

(** The bound methods and the one lambda the script hands to the host. *)
Inductive handler :=
| OnCloseWindow
| OnFullScreen
| OnMapCreated_handler
| OnMapSelection
| QuitRDigit
| Close_lambda.          (* lambda: self.Close() *)

Inductive signal := mapCreated | quitDigitizer.

Inductive widget := parent_frame | mapSelectionCombo.

Inductive wx_event := EVT_CLOSE | EVT_COMBOBOX.

(** Calls into the host, in the vocabulary of the script. *)
Inductive Call :=
| gs_set_raise_on_error (b : bool)
| gs_parser_error (r : Parser.rule)
| set_gui_path
| gs_fatal (msgid : string) (arg : string)
| os_environ_set (k v : string)
| wx_App
| wx_Frame (width height : Z) (title : string)
| MapPanel_init
| SetIcon (file : string)
| Bind (w : widget) (e : wx_event) (h : handler)
| Unbind (w : widget) (e : wx_event)
| shortcuts_table_append (h : handler)
| initShortcuts
| giface_set_mapframe
| Signal_connect (sg : signal) (h : handler)
| Signal_disconnect (sg : signal) (h : handler)
| GetMap
| Map_AddLayer (l : Layer.t)
| Map_Clean
| AddToolbar (name : string) (fixed : bool)
| SelectNewMap (standalone : bool) (mapName bgMap mapType : string)
| SetSelection (n : Z)
| OnMapSelection_call
| wx_BoxSizer
| sizer_Add
| SetSizer
| Layout
| UpdateMap
| Frame_Show
| MainLoop.

(** What the script reads from the host and never writes. *)
Record Host := mkHost {
  (* gs.gisenv()[key] *)
  gisenv : string → string;
  (* gs.find_file(name, element, mapset)["fullname"]; empty when not found *)
  find_file : string → string → string → string;
  (* UserSettings.Get(group, key, subkey) *)
  UserSettings_Get : string → string → string → string
}.

Record State := mkState {
  environ : gmap string string;   (* os.environ *)
  mapObj : list Layer.t;          (* layers of the panel's map object *)
  log : list Call                 (* host calls so far, oldest first *)
}.

(** The process at start-up, with the environment it inherits. *)
Definition start (env0 : gmap string string) : State :=
  {| environ := env0; mapObj := []; log := [] |}.

(** ** Effects: state passing with early exit *)

Inductive outcome (A : Type) :=
| Return (a : A) (s : State)
| Exit (status : Z) (s : State).
Arguments Return {A} a s.
Arguments Exit {A} status s.

Definition final {A} (r : outcome A) : State :=
  match r with Return _ s => s | Exit _ s => s end.

Definition M (A : Type) : Type := State → outcome A.

Global Instance M_ret : MRet M := λ A a s, Return a s.

Global Instance M_bind : MBind M := λ A B f m s,
  match m s with
  | Return a s' => f a s'
  | Exit c s' => Exit c s'
  end.

Definition call (c : Call) : M unit :=
  λ s, Return tt {| environ := environ s; mapObj := mapObj s;
                    log := log s ++ [c] |}.

(** [sys.exit(status)] *)
Definition sys_exit {A} (status : Z) : M A := λ s, Exit status s.

(** [for x in xs: f x] *)
Fixpoint for_each {A} (xs : list A) (f : A → M unit) : M unit :=
  match xs with
  | [] => mret tt
  | x :: xs' => f x ;; for_each xs' f
  end.

(** ** The host calls the script makes *)

Module gs.

(** [gs.set_raise_on_error(False)]: from here on [gs.fatal] ends the
    process instead of raising. *)
Definition set_raise_on_error (b : bool) : M unit :=
  call (gs_set_raise_on_error b).

(** [gs.parser()]: the answers when every rule holds; otherwise one error
    per broken rule and exit status 1. *)
Definition parser (argv : Options) : M Options :=
  if Parser.validate argv then mret argv
  else
    for_each (Parser.failed_rules argv) (λ r, call (gs_parser_error r)) ;;
    sys_exit 1.

(** [gs.fatal(_(msgid).format(arg))] with raising switched off: the
    message is displayed and the process exits with status 1. *)
Definition fatal {A} (msgid arg : string) : M A :=
  call (gs_fatal msgid arg) ;; sys_exit 1.

End gs.

(** [os.environ[k] = v] *)
Definition os_environ_setitem (k v : string) : M unit :=
  λ s, Return tt {| environ := <[k:=v]> (environ s); mapObj := mapObj s;
                    log := log s ++ [os_environ_set k v] |}.

Module Map.

(** Modelled from the spec: the map object of the host's rendering module,
    which is not part of this script.  Section 3 describes it as "the
    rendered composition of layers" on which the script "adds/removes one
    raster layer", section 6 names its interface "add/clean layer":
    adding puts the descriptor after the layers already there. *)
Definition AddLayer (l : Layer.t) : M unit :=
  λ s, Return tt {| environ := environ s; mapObj := mapObj s ++ [l];
                    log := log s ++ [Map_AddLayer l] |}.

(** Modelled from the spec: cleaning removes the layers ("the old layer is
    removed", section 4.3). *)
Definition Clean : M unit :=
  λ s, Return tt {| environ := environ s; mapObj := [];
                    log := log s ++ [Map_Clean] |}.

End Map.

(** [MapPanel.__init__(self, parent=parent, Map=Map(), giface=...)]: the
    panel starts with a map object of its own, made on the spot. *)
Definition MapPanel__init__ : M unit :=
  λ s, Return tt {| environ := environ s; mapObj := [];
                    log := log s ++ [MapPanel_init] |}.

(** ** class RDigitMapDisplay (lines 85-176) *)

Record Kwargs := mkKwargs {
  new_map : string;
  base_map : string;
  edit_map : string;
  map_type : string
}.

Module RDigitMapDisplay.

(** [_addLayer(self, name, ltype="raster")] *)
Definition _addLayer (name ltype : string) : M unit :=
  Map.AddLayer
    {| Layer.ltype := ltype;
       Layer.name := name;
       Layer.command := ["d.rast"; "map=" +:+ name];
       Layer.active := true;
       Layer.hidden := false;
       Layer.opacity := 1%Q;
       Layer.render := true |}.

(** [__init__(self, parent, new_map, base_map, edit_map, map_type)] *)
Definition __init__ (kw : Kwargs) : M unit :=
  MapPanel__init__ ;;
  (* set system icon *)
  call (SetIcon "grass.ico") ;;
  (* bindings *)
  call (Bind parent_frame EVT_CLOSE OnCloseWindow) ;;
  (* extend shortcuts and create frame accelerator table *)
  call (shortcuts_table_append OnFullScreen) ;;
  call initShortcuts ;;
  call giface_set_mapframe ;;
  call (Signal_connect mapCreated OnMapCreated_handler) ;;
  call GetMap ;;
  (* load raster map *)
  _addLayer (py_or (new_map kw) (edit_map kw)) "raster" ;;
  (* switch toolbar *)
  call (AddToolbar "rdigit" true) ;;
  (if truthy (new_map kw) then
     call (Unbind mapSelectionCombo EVT_COMBOBOX) ;;
     call (SelectNewMap true (new_map kw) (base_map kw) (map_type kw)) ;;
     call (Bind mapSelectionCombo EVT_COMBOBOX OnMapSelection)
   else
     call (SetSelection 1) ;;
     call OnMapSelection_call) ;;
  (* use Close instead of QuitRDigit for standalone tool *)
  call (Signal_disconnect quitDigitizer QuitRDigit) ;;
  call (Signal_connect quitDigitizer Close_lambda) ;;
  (* add Map Display panel to Map Display frame *)
  call wx_BoxSizer ;;
  call sizer_Add ;;
  call SetSizer ;;
  call Layout.

(** [OnMapCreated(self, name, ltype, add=None)]; [add] is unused. *)
Definition OnMapCreated (name ltype : string) (add : option bool) : M unit :=
  Map.Clean ;;
  _addLayer name ltype ;;
  call UpdateMap.

End RDigitMapDisplay.

(** ** main (lines 63-238) *)

(** Lines 178-183: the keyword arguments as the options give them. *)
Definition initial_kwargs (options : Options) : Kwargs :=
  {| new_map := create options;
     base_map := base options;
     edit_map := edit options;
     map_type := type options |}.

Definition set_edit_map (kw : Kwargs) (v : string) : Kwargs :=
  {| new_map := new_map kw; base_map := base_map kw; edit_map := v;
     map_type := map_type kw |}.

Definition set_base_map (kw : Kwargs) (v : string) : Kwargs :=
  {| new_map := new_map kw; base_map := v; edit_map := edit_map kw;
     map_type := map_type kw |}.

(** Lines 185-214: the names are looked up in the current mapset and
    replaced by what the lookup returns. *)
Definition resolve_maps (h : Host) (options : Options) (kwargs : Kwargs)
    : M Kwargs :=
  let mapset := gisenv h "MAPSET" in
  if truthy (edit_map kwargs) then
    let edit_map' := find_file h (edit_map kwargs) "raster" mapset in
    if negb (truthy edit_map') then
      gs.fatal "Raster map <{}> not found in current mapset." (edit options)
    else
      mret (set_edit_map kwargs edit_map')
  else if truthy (base_map kwargs) then
    let base_map' := find_file h (base_map kwargs) "raster" mapset in
    (if negb (truthy base_map') then
       gs.fatal "Base raster map <{}> not found in current mapset."
         (base options)
     else mret tt) ;;
    mret (set_base_map kwargs base_map')
  else
    mret kwargs.

(** Lines 216-225: allow immediate rendering. *)
Definition set_render_immediate (h : Host) : M unit :=
  let driver := UserSettings_Get h "display" "driver" "type" in
  if String.eqb driver "png" then
    os_environ_setitem "GRASS_RENDER_IMMEDIATE" "png"
  else
    os_environ_setitem "GRASS_RENDER_IMMEDIATE" "cairo".

Definition main (h : Host) (argv : Options) : M unit :=
  gs.set_raise_on_error false ;;
  options ← gs.parser argv ;
  call set_gui_path ;;
  let kwargs := initial_kwargs options in
  kwargs ← resolve_maps h options kwargs ;
  set_render_immediate h ;;
  call wx_App ;;
  call (wx_Frame 850 600 "Raster Digitizer - GRASS GIS") ;;
  RDigitMapDisplay.__init__ kwargs ;;
  call Frame_Show ;;
  call MainLoop.

(** ** Signals *)

Global Instance handler_eq_dec : EqDecision handler.
Proof. solve_decision. Defined.

Global Instance signal_eq_dec : EqDecision signal.
Proof. solve_decision. Defined.

Module Signal.

(** Modelled from the spec: the host's signal objects, which are not part of
    this script.  Section 9 describes them as "an observer registration
    mechanism where handlers are swappable": a signal holds its receivers,
    [connect] registers one (once), [disconnect] takes it out. *)
Definition connect (h : handler) (rs : list handler) : list handler :=
  if decide (h ∈ rs) then rs else rs ++ [h].

Definition disconnect (h : handler) (rs : list handler) : list handler :=
  filter (λ r, r ≠ h) rs.

End Signal.

(** The receivers of [sg] after the calls [l], when [rs] were registered
    before. *)
Fixpoint receivers (sg : signal) (rs : list handler) (l : list Call)
    : list handler :=
  match l with
  | [] => rs
  | Signal_connect sg' h :: l' =>
      receivers sg (if decide (sg' = sg) then Signal.connect h rs else rs) l'
  | Signal_disconnect sg' h :: l' =>
      receivers sg (if decide (sg' = sg) then Signal.disconnect h rs else rs)
        l'
  | _ :: l' => receivers sg rs l'
  end.

(** ** Reading the log *)

(** The calls of [l] that [p] picks, in order. *)
Definition calls_where (p : Call → bool) (l : list Call) : list Call :=
  List.filter p l.

(** The calls that bring the application and its window into being. *)
Definition window_call (c : Call) : bool :=
  match c with
  | wx_App | wx_Frame _ _ _ | MapPanel_init | Frame_Show => true
  | _ => false
  end.

Definition window_calls (l : list Call) : list Call :=
  calls_where window_call l.

Definition is_SelectNewMap (c : Call) : bool :=
  match c with SelectNewMap _ _ _ _ => true | _ => false end.

Definition is_edit_selection (c : Call) : bool :=
  match c with SetSelection _ | OnMapSelection_call => true | _ => false end.

Definition on_signal (sg : signal) (c : Call) : bool :=
  match c with
  | Signal_connect sg' _ | Signal_disconnect sg' _ => bool_decide (sg' = sg)
  | _ => false
  end.

Definition on_combo (c : Call) : bool :=
  match c with
  | Bind mapSelectionCombo _ _ | Unbind mapSelectionCombo _ => true
  | _ => false
  end.

(** The descriptors handed to [Map.AddLayer], in order. *)
Fixpoint added_layers (l : list Call) : list Layer.t :=
  match l with
  | [] => []
  | Map_AddLayer d :: l' => d :: added_layers l'
  | _ :: l' => added_layers l'
  end.

(** The calls of [s'] that were not yet in [s]. *)
Definition new_calls (s s' : State) : list Call :=
  drop (length (log s)) (log s').

(** What a computation logs when nothing was logged before. *)
Definition calls_of {A} (m : M A) : list Call := log (final (m (start ∅))).

(** [seg] occurs in [l] as a run of consecutive calls. *)
Definition segment (seg l : list Call) : Prop :=
  ∃ pre post, l = pre ++ seg ++ post.

(** [a] is called, and [b] is called later, with no call of [b] before. *)
Definition first_before (a b : Call) (l : list Call) : Prop :=
  ∃ pre post, l = pre ++ a :: post ∧ (b ∉ pre) ∧ (b ∈ post).

(** The layer [_addLayer] describes. *)
Definition raster_layer (name ltype : string) : Layer.t :=
  {| Layer.ltype := ltype;
     Layer.name := name;
     Layer.command := ["d.rast"; "map=" +:+ name];
     Layer.active := true;
     Layer.hidden := false;
     Layer.opacity := 1%Q;
     Layer.render := true |}.

(** What every layer of this script looks like. *)
Definition layer_shape (l : Layer.t) : Prop :=
  Layer.active l = true ∧
  Layer.hidden l = false ∧
  Layer.opacity l = 1%Q ∧
  Layer.render l = true ∧
  Layer.command l = ["d.rast"; "map=" +:+ Layer.name l].

(** ** The phases of [main] as functions of the options *)

(** [find_file(name, "raster", mapset)["fullname"]] in the current mapset. *)
Definition lookup (h : Host) (name : string) : string :=
  find_file h name "raster" (gisenv h "MAPSET").

(** Lines 187-214 end without [gs.fatal]. *)
Definition resolves (h : Host) (o : Options) : bool :=
  if truthy (edit o) then truthy (lookup h (edit o))
  else if truthy (base o) then truthy (lookup h (base o))
  else true.

(** The keyword arguments the constructor then receives. *)
Definition resolved_kwargs (h : Host) (o : Options) : Kwargs :=
  if truthy (edit o) then set_edit_map (initial_kwargs o) (lookup h (edit o))
  else if truthy (base o) then
    set_base_map (initial_kwargs o) (lookup h (base o))
  else initial_kwargs o.

(** The [gs.fatal] call of lines 195 and 209. *)
Definition not_found_call (o : Options) : Call :=
  if truthy (edit o) then
    gs_fatal "Raster map <{}> not found in current mapset." (edit o)
  else
    gs_fatal "Base raster map <{}> not found in current mapset." (base o).

(** The backend lines 222-225 choose. *)
Definition backend (h : Host) : string :=
  if String.eqb (UserSettings_Get h "display" "driver" "type") "png"
  then "png" else "cairo".

(** ** A sample host *)

(** A mapset [user1] holding the rasters [elev] and [bg]; the lookup
    answers with the name qualified by the mapset, and the display driver
    setting is [cairo]. *)
Definition demo_host : Host :=
  {| gisenv := λ k, if String.eqb k "MAPSET" then "user1" else "";
     find_file := λ name element mapset,
       if (String.eqb name "elev" || String.eqb name "bg")%bool
       then name +:+ "@" +:+ mapset else "";
     UserSettings_Get := λ _ _ _, "cairo" |}.

(** ** Map-created notifications *)

(** The arguments the map-created signal delivers to [OnMapCreated]. *)
Record Notification := mkNotification {
  n_name : string;
  n_ltype : string;
  n_add : option bool
}.

(** The handler run on each notification in turn, as the event loop
    delivers them. *)
Definition notify_all (ns : list Notification) : M unit :=
  for_each ns
    (λ n, RDigitMapDisplay.OnMapCreated (n_name n) (n_ltype n) (n_add n)).

(** The layer a notification asks for, and the calls it causes. *)
Definition notified_layer (n : Notification) : Layer.t :=
  raster_layer (n_name n) (n_ltype n).

Definition notification_calls (n : Notification) : list Call :=
  [Map_Clean; Map_AddLayer (notified_layer n); UpdateMap].

(** ** Variations of the input *)

(** The same options with another answer for [type]. *)
Definition with_type (o : Options) (t : string) : Options :=
  {| create := create o; base := base o; type := t; edit := edit o |}.

(** The inputs on which [main] gets as far as the event loop: edit mode
    with a raster the lookup finds, or create mode with no background map
    or one the lookup finds. *)
Definition reaches_window (h : Host) (o : Options) : Prop :=
  (edit o ≠ "" ∧ create o = "" ∧ base o = "" ∧ lookup h (edit o) ≠ "") ∨
  (create o ≠ "" ∧ edit o = "" ∧ (base o = "" ∨ lookup h (base o) ≠ "")).


(** ** Proof tools *)

Arguments truthy : simpl never.
Arguments String.append : simpl never.

(** Unfolding the binds without reducing would copy the state three times
    per call; call-by-value reduction of the named constants keeps the
    states small. *)
Ltac run_calls :=
  cbv beta iota delta
    [mbind M_bind mret M_ret call sys_exit environ mapObj log final start
     calls_of gs.fatal gs.set_raise_on_error os_environ_setitem
     RDigitMapDisplay.__init__ RDigitMapDisplay._addLayer
     RDigitMapDisplay.OnMapCreated Map.AddLayer Map.Clean MapPanel__init__
     raster_layer].

Ltac step_calls := run_calls; rewrite <- ?app_assoc; simpl.

(** * Properties *)

(** ** Python values *)

Lemma truthy_true s : truthy s = true ↔ s ≠ "".
Proof.
  unfold truthy. rewrite negb_true_iff.
  split.
  - intros E ->. discriminate E.
  - intros Hne. destruct (String.eqb s "") eqn:E; [|done].
    apply String.eqb_eq in E. by destruct Hne.
Qed.

Lemma truthy_false s : truthy s = false ↔ s = "".
Proof.
  unfold truthy. rewrite negb_false_iff. apply String.eqb_eq.
Qed.

Lemma py_or_truthy a b : truthy a = true → py_or a b = a.
Proof. unfold py_or. by intros ->. Qed.

Lemma py_or_falsy a b : truthy a = false → py_or a b = b.
Proof. unfold py_or. by intros ->. Qed.

(** ** Stepping through the monad *)

Lemma bind_Return {A B} (m : M A) (f : A → M B) s a s' :
  m s = Return a s' → (m ≫= f) s = f a s'.
Proof. intros E. unfold mbind, M_bind. by rewrite E. Qed.

Lemma bind_Exit {A B} (m : M A) (f : A → M B) s c s' :
  m s = Exit c s' → (m ≫= f) s = Exit c s'.
Proof. intros E. unfold mbind, M_bind. by rewrite E. Qed.

Lemma for_each_calls {A} (xs : list A) (g : A → Call) s :
  for_each xs (λ x, call (g x)) s =
  Return tt {| environ := environ s; mapObj := mapObj s;
               log := log s ++ map g xs |}.
Proof.
  revert s. induction xs as [|x xs IH]; intros s; simpl.
  - destruct s. unfold mret, M_ret. simpl. by rewrite app_nil_r.
  - unfold mbind, M_bind, call at 1. rewrite IH. simpl.
    by rewrite <- app_assoc.
Qed.

(** ** The option rules *)

Lemma validate_spec o :
  Parser.validate o = true ↔
  xorb (truthy (create o)) (truthy (edit o)) = true ∧
  implb (truthy (base o)) (truthy (create o)) = true.
Proof.
  unfold Parser.validate, Parser.failed_rules, Parser.rules,
    Parser.check_rule, Parser.count_present, Parser.is_present,
    Parser.answer.
  cbn.
  destruct (truthy (create o)), (truthy (edit o)), (truthy (base o));
    cbn; intuition congruence.
Qed.

Lemma validate_false o :
  Parser.validate o = false ↔
  truthy (create o) = truthy (edit o) ∨
  (truthy (base o) = true ∧ truthy (create o) = false).
Proof.
  destruct (Parser.validate o) eqn:E.
  - apply validate_spec in E as [E1 E2].
    destruct (truthy (create o)), (truthy (edit o)), (truthy (base o));
      simpl in *; intuition congruence.
  - split; [intros _|done].
    destruct (truthy (create o)) eqn:Ec, (truthy (edit o)) eqn:Ee,
      (truthy (base o)) eqn:Eb; auto.
    + assert (Parser.validate o = true) as E'; [|congruence].
      apply validate_spec. by rewrite Ec, Ee, Eb.
    + assert (Parser.validate o = true) as E'; [|congruence].
      apply validate_spec. by rewrite Ec, Ee, Eb.
    + assert (Parser.validate o = true) as E'; [|congruence].
      apply validate_spec. by rewrite Ec, Ee, Eb.
Qed.

Lemma parser_accepts o s :
  Parser.validate o = true → gs.parser o s = Return o s.
Proof. intros E. unfold gs.parser. by rewrite E. Qed.

Lemma parser_rejects o s :
  Parser.validate o = false →
  gs.parser o s =
  Exit 1 {| environ := environ s; mapObj := mapObj s;
            log := log s ++ map gs_parser_error (Parser.failed_rules o) |}.
Proof.
  intros E. unfold gs.parser. rewrite E.
  erewrite bind_Return; [|apply for_each_calls]. done.
Qed.

(** ** Runs of the phases of [main] *)

Lemma resolve_maps_found h o s :
  resolves h o = true →
  resolve_maps h o (initial_kwargs o) s = Return (resolved_kwargs h o) s.
Proof.
  unfold resolves, resolve_maps, resolved_kwargs, lookup. simpl.
  destruct (truthy (edit o)).
  - by intros ->.
  - destruct (truthy (base o)); [|done].
    intros ->. simpl. by step_calls.
Qed.

Lemma resolve_maps_missing h o s :
  resolves h o = false →
  resolve_maps h o (initial_kwargs o) s =
  Exit 1 {| environ := environ s; mapObj := mapObj s;
            log := log s ++ [not_found_call o] |}.
Proof.
  unfold resolves, resolve_maps, not_found_call, lookup, gs.fatal. simpl.
  destruct (truthy (edit o)).
  - by intros ->.
  - destruct (truthy (base o)); [|done].
    by intros ->.
Qed.

Lemma set_render_immediate_run h s :
  set_render_immediate h s =
  Return tt
    {| environ := <["GRASS_RENDER_IMMEDIATE" := backend h]> (environ s);
       mapObj := mapObj s;
       log := log s ++ [os_environ_set "GRASS_RENDER_IMMEDIATE" (backend h)] |}.
Proof.
  unfold set_render_immediate, backend.
  by destruct (String.eqb _ "png").
Qed.

Lemma init_run kw s :
  RDigitMapDisplay.__init__ kw s =
  Return tt
    {| environ := environ s;
       mapObj := [raster_layer (py_or (new_map kw) (edit_map kw)) "raster"];
       log := log s ++ calls_of (RDigitMapDisplay.__init__ kw) |}.
Proof.
  destruct s as [env layers calls].
  destruct (truthy (new_map kw)) eqn:E;
    run_calls; rewrite E; step_calls; reflexivity.
Qed.

Lemma init_calls_create kw :
  truthy (new_map kw) = true →
  calls_of (RDigitMapDisplay.__init__ kw) =
  [MapPanel_init; SetIcon "grass.ico";
   Bind parent_frame EVT_CLOSE OnCloseWindow;
   shortcuts_table_append OnFullScreen; initShortcuts; giface_set_mapframe;
   Signal_connect mapCreated OnMapCreated_handler; GetMap;
   Map_AddLayer (raster_layer (new_map kw) "raster");
   AddToolbar "rdigit" true]
  ++ [Unbind mapSelectionCombo EVT_COMBOBOX;
      SelectNewMap true (new_map kw) (base_map kw) (map_type kw);
      Bind mapSelectionCombo EVT_COMBOBOX OnMapSelection]
  ++ [Signal_disconnect quitDigitizer QuitRDigit;
      Signal_connect quitDigitizer Close_lambda]
  ++ [wx_BoxSizer; sizer_Add; SetSizer; Layout].
Proof.
  intros E. run_calls.
  rewrite (py_or_truthy _ _ E), E. step_calls. reflexivity.
Qed.

Lemma init_calls_edit kw :
  truthy (new_map kw) = false →
  calls_of (RDigitMapDisplay.__init__ kw) =
  [MapPanel_init; SetIcon "grass.ico";
   Bind parent_frame EVT_CLOSE OnCloseWindow;
   shortcuts_table_append OnFullScreen; initShortcuts; giface_set_mapframe;
   Signal_connect mapCreated OnMapCreated_handler; GetMap;
   Map_AddLayer (raster_layer (edit_map kw) "raster");
   AddToolbar "rdigit" true]
  ++ [SetSelection 1; OnMapSelection_call]
  ++ [Signal_disconnect quitDigitizer QuitRDigit;
      Signal_connect quitDigitizer Close_lambda]
  ++ [wx_BoxSizer; sizer_Add; SetSizer; Layout].
Proof.
  intros E. run_calls.
  rewrite (py_or_falsy _ _ E), E. step_calls. reflexivity.
Qed.

(** The three ways a run of [main] can go. *)

Lemma main_invalid h o s :
  Parser.validate o = false →
  main h o s =
  Exit 1 {| environ := environ s; mapObj := mapObj s;
            log := log s ++ gs_set_raise_on_error false
                     :: map gs_parser_error (Parser.failed_rules o) |}.
Proof.
  intros E. unfold main, gs.set_raise_on_error.
  unfold mbind at 1, M_bind at 1, call at 1.
  erewrite bind_Exit; [|by apply parser_rejects].
  simpl. by rewrite <- app_assoc.
Qed.

Lemma main_unresolved h o s :
  Parser.validate o = true → resolves h o = false →
  main h o s =
  Exit 1 {| environ := environ s; mapObj := mapObj s;
            log := log s ++ [gs_set_raise_on_error false; set_gui_path;
                             not_found_call o] |}.
Proof.
  intros Ev Er. unfold main, gs.set_raise_on_error.
  unfold mbind at 1, M_bind at 1, call at 1.
  erewrite bind_Return; [|by apply parser_accepts].
  unfold mbind at 1, M_bind at 1, call at 1.
  erewrite bind_Exit; [|by apply resolve_maps_missing].
  simpl. by rewrite <- !app_assoc.
Qed.

Lemma main_shown h o s :
  Parser.validate o = true → resolves h o = true →
  main h o s =
  Return tt
    {| environ := <["GRASS_RENDER_IMMEDIATE" := backend h]> (environ s);
       mapObj := [raster_layer (py_or (new_map (resolved_kwargs h o))
                                      (edit_map (resolved_kwargs h o)))
                               "raster"];
       log := log s
         ++ [gs_set_raise_on_error false; set_gui_path;
             os_environ_set "GRASS_RENDER_IMMEDIATE" (backend h);
             wx_App; wx_Frame 850 600 "Raster Digitizer - GRASS GIS"]
         ++ calls_of (RDigitMapDisplay.__init__ (resolved_kwargs h o))
         ++ [Frame_Show; MainLoop] |}.
Proof.
  intros Ev Er. unfold main, gs.set_raise_on_error.
  unfold mbind at 1, M_bind at 1, call at 1.
  erewrite bind_Return; [|by apply parser_accepts].
  unfold mbind at 1, M_bind at 1, call at 1.
  erewrite bind_Return; [|by apply resolve_maps_found].
  erewrite bind_Return; [|by apply set_render_immediate_run].
  unfold mbind at 1, M_bind at 1, call at 1.
  unfold mbind at 1, M_bind at 1, call at 1.
  erewrite bind_Return; [|by apply init_run].
  step_calls. reflexivity.
Qed.

(** ** Facts about logs *)

Lemma added_layers_app l1 l2 :
  added_layers (l1 ++ l2) = added_layers l1 ++ added_layers l2.
Proof.
  induction l1 as [|c l1 IH]; [done|].
  destruct c; simpl; by rewrite ?IH.
Qed.

Lemma window_calls_app l1 l2 :
  window_calls (l1 ++ l2) = window_calls l1 ++ window_calls l2.
Proof. apply List.filter_app. Qed.

Lemma window_calls_parser_errors rs :
  window_calls (map gs_parser_error rs) = [].
Proof.
  induction rs as [|r rs IH]; [done|]. exact IH.
Qed.

Lemma last_parser_errors (rs : list Parser.rule) c :
  rs ≠ [] →
  ∃ r, r ∈ rs ∧ last (c :: map gs_parser_error rs) = Some (gs_parser_error r).
Proof.
  intros Hne. induction rs as [|r0 rs' _] using rev_ind; [done|].
  exists r0. split; [apply elem_of_app; right; apply list_elem_of_here|].
  rewrite map_app. simpl. by rewrite app_comm_cons, last_snoc.
Qed.

Lemma new_calls_app s l env m :
  new_calls s {| environ := env; mapObj := m; log := log s ++ l |} = l.
Proof. unfold new_calls. simpl. by rewrite drop_app_length. Qed.

Lemma segment_app_r seg pre l : segment seg l → segment seg (pre ++ l).
Proof.
  intros (p & q & ->). exists (pre ++ p), q. by rewrite <- app_assoc.
Qed.

Lemma segment_app_l seg post l : segment seg l → segment seg (l ++ post).
Proof.
  intros (p & q & ->). exists p, (q ++ post). by rewrite <- !app_assoc.
Qed.

Lemma segment_here seg post : segment seg (seg ++ post).
Proof. by exists [], post. Qed.

Lemma failed_rules_nonempty o :
  Parser.validate o = false → Parser.failed_rules o ≠ [].
Proof. unfold Parser.validate. by destruct (Parser.failed_rules o). Qed.

Lemma failed_requires o :
  truthy (base o) = true → truthy (create o) = false →
  Parser.requires [Parser.k_base; Parser.k_create] ∈ Parser.failed_rules o.
Proof.
  intros Eb Ec.
  unfold Parser.failed_rules, Parser.rules, Parser.check_rule,
    Parser.count_present, Parser.is_present.
  cbn. rewrite Eb, Ec.
  destruct (truthy (edit o)); cbn; set_solver.
Qed.

Lemma calls_where_app p l1 l2 :
  calls_where p (l1 ++ l2) = calls_where p l1 ++ calls_where p l2.
Proof. apply List.filter_app. Qed.

Lemma added_layers_init kw :
  added_layers (calls_of (RDigitMapDisplay.__init__ kw)) =
  [raster_layer (py_or (new_map kw) (edit_map kw)) "raster"].
Proof.
  destruct (truthy (new_map kw)) eqn:E.
  - rewrite init_calls_create, py_or_truthy by done. reflexivity.
  - rewrite init_calls_edit, py_or_falsy by done. reflexivity.
Qed.

Lemma added_layers_parser_errors rs :
  added_layers (map gs_parser_error rs) = [].
Proof. induction rs as [|r rs IH]; [done|]. simpl. exact IH. Qed.

Lemma raster_layer_shape name ltype : layer_shape (raster_layer name ltype).
Proof. by repeat split. Qed.

(** For options that obey the rules, the mode decides what is looked up. *)
Lemma resolved_edit h o :
  Parser.validate o = true → truthy (edit o) = true →
  resolved_kwargs h o = set_edit_map (initial_kwargs o) (lookup h (edit o)) ∧
  truthy (create o) = false.
Proof.
  intros Ev Ee. apply validate_spec in Ev as [Ex _].
  unfold resolved_kwargs. rewrite Ee in *.
  by destruct (truthy (create o)).
Qed.

Lemma resolved_create h o :
  Parser.validate o = true → truthy (create o) = true →
  resolved_kwargs h o =
    set_base_map (initial_kwargs o)
      (if truthy (base o) then lookup h (base o) else "") ∧
  truthy (edit o) = false.
Proof.
  intros Ev Ec. apply validate_spec in Ev as [Ex _].
  unfold resolved_kwargs. rewrite Ec in *.
  destruct (truthy (edit o)); [done|].
  split; [|done].
  destruct (truthy (base o)) eqn:Eb; [done|].
  apply truthy_false in Eb. unfold set_base_map, initial_kwargs.
  by rewrite Eb.
Qed.

(** ** Option validation *)

(** C1.  When [create] and [edit] are both given, and when neither is, the
    option rules are broken and the run ends with exit status 1 on a parser
    error: no application, frame or panel call was made and the map object
    holds no layer.  Exactly one of the two has to be given. *)
Theorem parser_rejects_both_or_neither h o env0 :
  truthy (create o) = truthy (edit o) →
  Parser.validate o = false ∧
  ∃ s', main h o (start env0) = Exit 1 s' ∧
        window_calls (log s') = [] ∧
        mapObj s' = [] ∧
        ∃ r, r ∈ Parser.failed_rules o ∧
             last (log s') = Some (gs_parser_error r).
Proof.
  intros E.
  assert (Parser.validate o = false) as Ev by (apply validate_false; auto).
  split; [done|].
  eexists. split; [by apply main_invalid|]. simpl.
  split; [|split; [done|]].
  - apply window_calls_parser_errors.
  - by apply last_parser_errors, failed_rules_nonempty.
Qed.

(** Both given; neither given. *)
Lemma parser_rejects_both_or_neither_witness :
  (truthy "newmap" = truthy "elev" ∧
   ∃ s', main demo_host (mkOptions "newmap" "" "CELL" "elev") (start ∅)
         = Exit 1 s' ∧ window_calls (log s') = []) ∧
  (truthy "" = truthy "" ∧
   ∃ s', main demo_host (mkOptions "" "" "CELL" "") (start ∅)
         = Exit 1 s' ∧ window_calls (log s') = []).
Proof.
  split; (split; [reflexivity|]).
  - destruct (parser_rejects_both_or_neither demo_host
                (mkOptions "newmap" "" "CELL" "elev") ∅)
      as (_ & s' & E & W & _); [reflexivity|].
    exists s'. split; [exact E|exact W].
  - destruct (parser_rejects_both_or_neither demo_host
                (mkOptions "" "" "CELL" "") ∅)
      as (_ & s' & E & W & _); [reflexivity|].
    exists s'. split; [exact E|exact W].
Defined.

(** C8, as amended.  The rule is [requires: base, create]: when [base] is
    given and [create] is not, the rules are broken and the run ends with
    exit status 1 on the parser error of that rule, before any window
    call. *)
Theorem base_requires_create h o env0 :
  truthy (base o) = true → truthy (create o) = false →
  Parser.validate o = false ∧
  ∃ s', main h o (start env0) = Exit 1 s' ∧
        window_calls (log s') = [] ∧
        gs_parser_error (Parser.requires [Parser.k_base; Parser.k_create])
          ∈ log s'.
Proof.
  intros Eb Ec.
  assert (Parser.validate o = false) as Ev by (apply validate_false; auto).
  split; [done|].
  eexists. split; [by apply main_invalid|]. simpl.
  split.
  - apply window_calls_parser_errors.
  - apply elem_of_cons. right.
    apply list_elem_of_fmap. eexists. split; [done|].
    by apply failed_requires.
Qed.

Lemma base_requires_create_witness :
  truthy "bg" = true ∧ truthy "" = false ∧
  ∃ s', main demo_host (mkOptions "" "bg" "CELL" "elev") (start ∅)
        = Exit 1 s' ∧
        window_calls (log s') = [] ∧
        gs_parser_error (Parser.requires [Parser.k_base; Parser.k_create])
          ∈ log s'.
Proof.
  split; [reflexivity|]. split; [reflexivity|].
  apply (base_requires_create demo_host
           (mkOptions "" "bg" "CELL" "elev") ∅); reflexivity.
Defined.

(** C8 as stated fails: with [create] given and [base] left out the options
    pass the rules, and the run goes on to show the window. *)
Lemma create_without_base_passes :
  let o := mkOptions "newmap" "" "CELL" "" in
  truthy (create o) = true ∧ truthy (base o) = false ∧
  Parser.validate o ≠ false ∧
  (¬ ∃ st s', main demo_host o (start ∅) = Exit st s') ∧
  ∃ s', main demo_host o (start ∅) = Return tt s' ∧ Frame_Show ∈ log s'.
Proof.
  simpl.
  split; [reflexivity|]. split; [reflexivity|].
  split; [by vm_compute|].
  assert (∃ s', main demo_host (mkOptions "newmap" "" "CELL" "") (start ∅)
                = Return tt s' ∧ Frame_Show ∈ log s') as (s' & E & Hin).
  { eexists. split; [by apply main_shown|]. simpl.
    rewrite ?elem_of_app, ?elem_of_cons. set_solver. }
  split; [|by eauto].
  intros (st & s'' & E'). rewrite E in E'. discriminate E'.
Qed.

(** ** Map resolution *)

(** C2.  When [edit] names a raster the lookup does not find, and when
    [create] is given and [base] names a raster the lookup does not find,
    the run ends with exit status 1 and no application, frame or panel call
    was made.  For options that obey the rules the last call is [gs.fatal]
    with the not-found message for that name; options that break the rules
    were already turned down by the parser. *)
Theorem missing_raster_is_fatal h o env0 :
  (edit o ≠ "" ∧ lookup h (edit o) = "") ∨
  (create o ≠ "" ∧ base o ≠ "" ∧ lookup h (base o) = "") →
  ∃ s', main h o (start env0) = Exit 1 s' ∧
        window_calls (log s') = [] ∧
        mapObj s' = [] ∧
        (Parser.validate o = true →
         last (log s') = Some (not_found_call o) ∧
         not_found_call o =
           if truthy (edit o)
           then gs_fatal "Raster map <{}> not found in current mapset."
                  (edit o)
           else gs_fatal "Base raster map <{}> not found in current mapset."
                  (base o)).
Proof.
  intros Hmiss.
  destruct (Parser.validate o) eqn:Ev.
  - assert (resolves h o = false) as Er.
    { apply validate_spec in Ev as [Ex Ei]. unfold resolves.
      destruct Hmiss as [[He Hl]|(Hc & Hb & Hl)].
      - apply truthy_true in He. rewrite He. by apply truthy_false.
      - apply truthy_true in Hc, Hb. rewrite Hc in Ex. simpl in Ex.
        apply negb_true_iff in Ex. rewrite Ex, Hb. by apply truthy_false. }
    eexists. split; [by apply main_unresolved|]. simpl.
    split; [|done].
    unfold window_calls, not_found_call.
    by destruct (truthy (edit o)).
  - eexists. split; [by apply main_invalid|]. simpl.
    split; [|split; [done|done]].
    apply window_calls_parser_errors.
Qed.

Lemma missing_raster_is_fatal_witness :
  (lookup demo_host "nowhere" = "" ∧
   ∃ s', main demo_host (mkOptions "" "" "CELL" "nowhere") (start ∅)
         = Exit 1 s' ∧
         window_calls (log s') = [] ∧
         last (log s') =
           Some (gs_fatal "Raster map <{}> not found in current mapset."
                   "nowhere")) ∧
  (∃ s', main demo_host (mkOptions "newmap" "nowhere" "CELL" "") (start ∅)
         = Exit 1 s' ∧
         window_calls (log s') = [] ∧
         last (log s') =
           Some (gs_fatal "Base raster map <{}> not found in current mapset."
                   "nowhere")).
Proof.
  split; [split; [reflexivity|]|].
  - destruct (missing_raster_is_fatal demo_host
                (mkOptions "" "" "CELL" "nowhere") ∅) as (s' & E & W & _ & L).
    { left. split; [discriminate|reflexivity]. }
    exists s'. split; [exact E|]. split; [exact W|].
    apply L. reflexivity.
  - destruct (missing_raster_is_fatal demo_host
                (mkOptions "newmap" "nowhere" "CELL" "") ∅)
      as (s' & E & W & _ & L).
    { right. split; [discriminate|]. split; [discriminate|reflexivity]. }
    exists s'. split; [exact E|]. split; [exact W|].
    apply L. reflexivity.
Defined.

(** ** The map-created handler *)

Lemma map_created_run name ltype add s :
  RDigitMapDisplay.OnMapCreated name ltype add s =
  Return tt
    {| environ := environ s;
       mapObj := [raster_layer name ltype];
       log := log s ++ [Map_Clean; Map_AddLayer (raster_layer name ltype);
                        UpdateMap] |}.
Proof.
  destruct s as [env layers calls].
  step_calls. reflexivity.
Qed.

(** C7.  On a map-created notification, whatever the name and the layer
    type, the handler returns after exactly three calls, in this order: it
    cleans the map object, adds the layer of the new map, and updates the
    map window.  Afterwards the map object holds the new layer and nothing
    else, whatever it held before. *)
Theorem map_created_replaces_layer name ltype add s :
  ∃ s', RDigitMapDisplay.OnMapCreated name ltype add s = Return tt s' ∧
    new_calls s s' =
      [Map_Clean; Map_AddLayer (raster_layer name ltype); UpdateMap] ∧
    mapObj s' = [raster_layer name ltype] ∧
    environ s' = environ s.
Proof.
  eexists. split; [apply map_created_run|].
  by rewrite new_calls_app.
Qed.

(** ** Window construction *)

(** C6.  In every constructed window, in create mode and in edit mode, the
    constructor disconnects [QuitRDigit] from the quit-digitizer signal and
    right after connects the window-closing lambda; it makes no other call
    on that signal.  Whatever receivers the host had registered, afterwards
    [QuitRDigit] is not among them and the closing lambda is. *)
Theorem quit_signal_closes_window kw s :
  ∃ s', RDigitMapDisplay.__init__ kw s = Return tt s' ∧
    segment [Signal_disconnect quitDigitizer QuitRDigit;
             Signal_connect quitDigitizer Close_lambda] (new_calls s s') ∧
    calls_where (on_signal quitDigitizer) (new_calls s s') =
      [Signal_disconnect quitDigitizer QuitRDigit;
       Signal_connect quitDigitizer Close_lambda] ∧
    ∀ rs,
      receivers quitDigitizer rs (new_calls s s') =
        Signal.connect Close_lambda (Signal.disconnect QuitRDigit rs) ∧
      (QuitRDigit ∉ receivers quitDigitizer rs (new_calls s s')) ∧
      (Close_lambda ∈ receivers quitDigitizer rs (new_calls s s')).
Proof.
  eexists. split; [apply init_run|].
  rewrite new_calls_app.
  assert (∀ rs,
            (QuitRDigit ∉
               Signal.connect Close_lambda (Signal.disconnect QuitRDigit rs)) ∧
            (Close_lambda ∈
               Signal.connect Close_lambda (Signal.disconnect QuitRDigit rs)))
    as Hrs.
  { intros rs. unfold Signal.connect, Signal.disconnect.
    case_decide as Hin.
    - split; [|done]. rewrite list_elem_of_filter. tauto.
    - split.
      + rewrite elem_of_app, list_elem_of_filter, list_elem_of_singleton.
        intros [[Hne _]|Heq]; [by apply Hne|discriminate Heq].
      + apply elem_of_app. right. by apply list_elem_of_singleton. }
  destruct (truthy (new_map kw)) eqn:E.
  - rewrite init_calls_create by done.
    split; [apply segment_app_r, segment_app_r, segment_here|].
    split; [reflexivity|].
    intros rs. split; [reflexivity|]. apply Hrs.
  - rewrite init_calls_edit by done.
    split; [apply segment_app_r, segment_app_r, segment_here|].
    split; [reflexivity|].
    intros rs. split; [reflexivity|]. apply Hrs.
Qed.

(** C10.  The constructor adds exactly one layer, named by [new_map] when
    that is given and by [edit_map] otherwise, and the map object holds just
    that layer.  [base_map] is not added as a layer: giving another
    [base_map] changes neither the layers added nor any call other than
    [SelectNewMap], which is made in create mode only and carries
    [base_map] as its background map. *)
Theorem constructor_adds_one_layer kw s :
  ∃ s', RDigitMapDisplay.__init__ kw s = Return tt s' ∧
    added_layers (new_calls s s') =
      [raster_layer (if truthy (new_map kw) then new_map kw else edit_map kw)
         "raster"] ∧
    mapObj s' = added_layers (new_calls s s') ∧
    calls_where is_SelectNewMap (new_calls s s') =
      (if truthy (new_map kw)
       then [SelectNewMap true (new_map kw) (base_map kw) (map_type kw)]
       else []) ∧
    ∀ b,
      let sb := final (RDigitMapDisplay.__init__ (set_base_map kw b) s) in
      added_layers (new_calls s sb) = added_layers (new_calls s s') ∧
      calls_where (λ c, negb (is_SelectNewMap c)) (new_calls s sb) =
        calls_where (λ c, negb (is_SelectNewMap c)) (new_calls s s').
Proof.
  eexists. split; [apply init_run|].
  rewrite new_calls_app. simpl.
  rewrite added_layers_init. fold (py_or (new_map kw) (edit_map kw)).
  split; [done|]. split; [done|].
  split.
  - destruct (truthy (new_map kw)) eqn:E.
    + by rewrite init_calls_create.
    + by rewrite init_calls_edit.
  - intros b. rewrite init_run. simpl. rewrite new_calls_app.
    rewrite added_layers_init. split; [done|].
    destruct (truthy (new_map kw)) eqn:E.
    + rewrite !init_calls_create by done. reflexivity.
    + rewrite !init_calls_edit by done. reflexivity.
Qed.

(** C9.  Every layer the script adds, in a run of [main] however it ends
    and in the map-created handler, is active, not hidden, of opacity 1.0,
    rendered, and drawn by the command [d.rast map=<name>] for its own
    name. *)
Theorem added_layers_have_one_shape :
  (∀ h o env0,
     Forall layer_shape (added_layers (log (final (main h o (start env0)))))) ∧
  (∀ name ltype add s,
     added_layers
       (new_calls s (final (RDigitMapDisplay.OnMapCreated name ltype add s)))
       = [raster_layer name ltype] ∧
     Forall layer_shape
       (added_layers
          (new_calls s
             (final (RDigitMapDisplay.OnMapCreated name ltype add s))))).
Proof.
  split.
  - intros h o env0.
    destruct (Parser.validate o) eqn:Ev; [destruct (resolves h o) eqn:Er|].
    + rewrite main_shown by done. simpl.
      rewrite !added_layers_app, added_layers_init. simpl.
      repeat constructor; apply raster_layer_shape.
    + rewrite main_unresolved by done. simpl.
      unfold not_found_call. destruct (truthy (edit o)); constructor.
    + rewrite main_invalid by done. simpl.
      rewrite added_layers_parser_errors. constructor.
  - intros name ltype add s.
    rewrite map_created_run. simpl. rewrite new_calls_app.
    split; [reflexivity|].
    repeat constructor; apply raster_layer_shape.
Qed.

(** ** Runs that reach the window *)

(** C3, as amended.  For options that obey the rules, with [edit] naming a
    raster the lookup finds, the run shows the window; exactly one layer was
    added, named by the full name the lookup returned for [edit]; the
    toolbar's edit path was taken, [SetSelection] and right after it
    [OnMapSelection], once each, and [SelectNewMap] was never called. *)
Theorem edit_mode_loads_resolved_raster h o env0 :
  Parser.validate o = true → edit o ≠ "" → lookup h (edit o) ≠ "" →
  ∃ s', main h o (start env0) = Return tt s' ∧
    added_layers (log s') = [raster_layer (lookup h (edit o)) "raster"] ∧
    mapObj s' = [raster_layer (lookup h (edit o)) "raster"] ∧
    segment [SetSelection 1; OnMapSelection_call] (log s') ∧
    calls_where is_edit_selection (log s') =
      [SetSelection 1; OnMapSelection_call] ∧
    calls_where is_SelectNewMap (log s') = [].
Proof.
  intros Ev He Hl. apply truthy_true in He, Hl.
  destruct (resolved_edit h o Ev He) as [Ekw Ec].
  assert (resolves h o = true) as Er by (unfold resolves; by rewrite He).
  eexists. split; [by apply main_shown|]. simpl.
  rewrite Ekw. simpl.
  rewrite init_calls_edit, py_or_falsy by done. simpl.
  split; [reflexivity|]. split; [reflexivity|].
  split; [|split; reflexivity].
  eexists (_ :: _ :: _ :: _ :: _ :: _ :: _ :: _ :: _ :: _ :: _ :: _ :: _
             :: _ :: _ :: []), _.
  reflexivity.
Qed.

Lemma edit_mode_loads_resolved_raster_witness :
  ∃ s', main demo_host (mkOptions "" "" "CELL" "elev") (start ∅)
        = Return tt s' ∧
    added_layers (log s') = [raster_layer "elev@user1" "raster"] ∧
    calls_where is_edit_selection (log s') =
      [SetSelection 1; OnMapSelection_call] ∧
    calls_where is_SelectNewMap (log s') = [].
Proof.
  destruct (edit_mode_loads_resolved_raster demo_host
              (mkOptions "" "" "CELL" "elev") ∅)
    as (s' & E & L & _ & _ & S1 & S2).
  - reflexivity.
  - discriminate.
  - discriminate.
  - exists s'. split; [exact E|]. split; [exact L|]. split; [exact S1|exact S2].
Defined.

(** C3 as stated fails: [edit=elev] is found in mapset [user1], and the one
    layer added is named [elev@user1], not [elev]. *)
Lemma edit_layer_not_named_as_given :
  let o := mkOptions "" "" "CELL" "elev" in
  Parser.validate o = true ∧
  lookup demo_host (edit o) ≠ "" ∧
  (∃ s', main demo_host o (start ∅) = Return tt s' ∧
         map Layer.name (added_layers (log s')) = ["elev@user1"]) ∧
  ¬ (∃ s', main demo_host o (start ∅) = Return tt s' ∧
           map Layer.name (added_layers (log s')) = [edit o]).
Proof.
  simpl.
  assert (∃ s', main demo_host (mkOptions "" "" "CELL" "elev") (start ∅)
                = Return tt s' ∧
                map Layer.name (added_layers (log s')) = ["elev@user1"])
    as (s' & E & L).
  { eexists. split; [by apply main_shown|]. reflexivity. }
  split; [reflexivity|]. split; [discriminate|].
  split; [by eauto|].
  intros (s'' & E' & L'). rewrite E in E'. injection E' as <-.
  rewrite L in L'. discriminate L'.
Qed.

(** C4.  For options that obey the rules and whose names resolve, with
    [create] given, the run shows the window and the create path was taken:
    [SelectNewMap] was called once, with [standalone=True], the new map, the
    background map as resolved and the type; the call just before it unbound
    the combo box's [EVT_COMBOBOX], the call just after it bound that event
    to [OnMapSelection]; the script touched the combo box's bindings with no
    other call and never took the edit path. *)
Theorem create_mode_selects_new_map h o env0 :
  Parser.validate o = true → create o ≠ "" → resolves h o = true →
  let bg := if truthy (base o) then lookup h (base o) else "" in
  ∃ s', main h o (start env0) = Return tt s' ∧
    segment [Unbind mapSelectionCombo EVT_COMBOBOX;
             SelectNewMap true (create o) bg (type o);
             Bind mapSelectionCombo EVT_COMBOBOX OnMapSelection] (log s') ∧
    calls_where is_SelectNewMap (log s') =
      [SelectNewMap true (create o) bg (type o)] ∧
    calls_where on_combo (log s') =
      [Unbind mapSelectionCombo EVT_COMBOBOX;
       Bind mapSelectionCombo EVT_COMBOBOX OnMapSelection] ∧
    calls_where is_edit_selection (log s') = [].
Proof.
  intros Ev Hc Er bg. apply truthy_true in Hc.
  destruct (resolved_create h o Ev Hc) as [Ekw Ee]. fold bg in Ekw.
  eexists. split; [by apply main_shown|]. simpl.
  rewrite Ekw. simpl.
  rewrite init_calls_create by done. simpl.
  split; [|repeat split; reflexivity].
  eexists (_ :: _ :: _ :: _ :: _ :: _ :: _ :: _ :: _ :: _ :: _ :: _ :: _
             :: _ :: _ :: []), _.
  reflexivity.
Qed.

Lemma create_mode_selects_new_map_witness :
  ∃ s', main demo_host (mkOptions "newmap" "bg" "CELL" "") (start ∅)
        = Return tt s' ∧
    segment [Unbind mapSelectionCombo EVT_COMBOBOX;
             SelectNewMap true "newmap" "bg@user1" "CELL";
             Bind mapSelectionCombo EVT_COMBOBOX OnMapSelection] (log s') ∧
    calls_where is_edit_selection (log s') = [].
Proof.
  destruct (create_mode_selects_new_map demo_host
              (mkOptions "newmap" "bg" "CELL" "") ∅)
    as (s' & E & S1 & _ & _ & S2).
  - reflexivity.
  - discriminate.
  - reflexivity.
  - exists s'. split; [exact E|]. split; [exact S1|exact S2].
Defined.

(** C5.  In every run whose options obey the rules and whose names resolve,
    [GRASS_RENDER_IMMEDIATE] ends up set to [png] when the display driver
    setting equals [png] and to [cairo] for any other setting, and the
    assignment comes in the log before the call that shows the window. *)
Theorem render_backend_chosen_before_show h o env0 :
  Parser.validate o = true → resolves h o = true →
  ∃ s', main h o (start env0) = Return tt s' ∧
    environ s' !! "GRASS_RENDER_IMMEDIATE" = Some (backend h) ∧
    (UserSettings_Get h "display" "driver" "type" = "png" →
     backend h = "png") ∧
    (UserSettings_Get h "display" "driver" "type" ≠ "png" →
     backend h = "cairo") ∧
    first_before (os_environ_set "GRASS_RENDER_IMMEDIATE" (backend h))
      Frame_Show (log s').
Proof.
  intros Ev Er.
  eexists. split; [by apply main_shown|]. simpl.
  split; [apply lookup_insert_eq|].
  split; [|split].
  - intros E. unfold backend. by rewrite E.
  - intros Hne. unfold backend.
    destruct (String.eqb _ "png") eqn:E; [|done].
    apply String.eqb_eq in E. by destruct Hne.
  - exists [gs_set_raise_on_error false; set_gui_path]. eexists.
    split; [reflexivity|]. split.
    + rewrite !elem_of_cons, elem_of_nil. intros [?|[?|?]]; done.
    + do 2 apply list_elem_of_further.
      apply elem_of_app. right. apply list_elem_of_here.
Qed.

Lemma render_backend_chosen_before_show_witness :
  ∃ s', main demo_host (mkOptions "" "" "CELL" "elev") (start ∅)
        = Return tt s' ∧
    environ s' !! "GRASS_RENDER_IMMEDIATE" = Some "cairo" ∧
    first_before (os_environ_set "GRASS_RENDER_IMMEDIATE" "cairo")
      Frame_Show (log s').
Proof.
  destruct (render_backend_chosen_before_show demo_host
              (mkOptions "" "" "CELL" "elev") ∅)
    as (s' & E & V & _ & _ & B).
  - reflexivity.
  - reflexivity.
  - exists s'. split; [exact E|]. split; [exact V|exact B].
Defined.


(** * Further properties *)

(** ** Helpers *)

Lemma reaches_window_spec h o :
  Parser.validate o = true ∧ resolves h o = true ↔ reaches_window h o.
Proof.
  unfold reaches_window, resolves.
  rewrite validate_spec, <- !truthy_true, <- !truthy_false.
  destruct (truthy (create o)), (truthy (edit o)), (truthy (base o)),
    (truthy (lookup h (edit o))), (truthy (lookup h (base o)));
    simpl; intuition congruence.
Qed.

Lemma set_gui_path_not_parser_error rs :
  set_gui_path ∉ map gs_parser_error rs.
Proof.
  intros Hin. apply list_elem_of_fmap in Hin as (r & E & _). discriminate E.
Qed.

Lemma resolved_name_not_empty h o :
  Parser.validate o = true → resolves h o = true →
  py_or (new_map (resolved_kwargs h o)) (edit_map (resolved_kwargs h o)) ≠ "".
Proof.
  intros Ev Er. apply truthy_true.
  destruct (truthy (create o)) eqn:Ec.
  - destruct (resolved_create h o Ev Ec) as [-> _]. simpl.
    by rewrite py_or_truthy.
  - assert (truthy (edit o) = true) as Ee.
    { apply validate_spec in Ev as [Ex _]. by rewrite Ec in Ex. }
    destruct (resolved_edit h o Ev Ee) as [-> _]. simpl.
    rewrite py_or_falsy by done.
    unfold resolves in Er. by rewrite Ee in Er.
Qed.

Lemma added_layers_notifications ns :
  added_layers (concat (map notification_calls ns)) = map notified_layer ns.
Proof.
  induction ns as [|n ns IH]; [done|].
  simpl. by rewrite IH.
Qed.

Lemma notify_all_run ns s :
  notify_all ns s =
  Return tt
    {| environ := environ s;
       mapObj := from_option (λ n, [notified_layer n]) (mapObj s) (last ns);
       log := log s ++ concat (map notification_calls ns) |}.
Proof.
  revert s. induction ns as [|n ns IH]; intros s.
  - destruct s. unfold notify_all. simpl. unfold mret, M_ret.
    by rewrite app_nil_r.
  - unfold notify_all in *. simpl.
    erewrite bind_Return; [|apply map_created_run].
    rewrite IH. simpl. rewrite <- app_assoc. simpl.
    destruct ns as [|n0 ns']; [reflexivity|].
    change (last (n :: n0 :: ns')) with (last (n0 :: ns')).
    destruct (last (n0 :: ns')) eqn:El; [reflexivity|].
    by apply last_None in El.
Qed.


(** ** How a run ends *)

(** X1.  [main] gets through to the event loop exactly on these inputs:
    [edit] alone, naming a raster the lookup finds; or [create], without
    [edit], with no [base] or with a [base] the lookup finds. *)
Theorem main_returns_iff h o env0 :
  (∃ s', main h o (start env0) = Return tt s') ↔ reaches_window h o.
Proof.
  rewrite <- reaches_window_spec. split.
  - intros (s' & E).
    destruct (Parser.validate o) eqn:Ev.
    + destruct (resolves h o) eqn:Er; [done|].
      rewrite main_unresolved in E by done. discriminate E.
    + rewrite main_invalid in E by done. discriminate E.
  - intros [Ev Er]. eexists. by apply main_shown.
Qed.



(** X3.  A run that ends early ends with exit status 1, with [os.environ]
    as inherited, no layer in the map object and no window call.  The GUI
    path was set up only when the parser had accepted the options, that is,
    when the run was stopped by a raster that was not found. *)
Theorem failed_run_leaves_no_trace h o env0 c s' :
  main h o (start env0) = Exit c s' →
  c = 1 ∧
  environ s' = env0 ∧
  mapObj s' = [] ∧
  window_calls (log s') = [] ∧
  added_layers (log s') = [] ∧
  (set_gui_path ∈ log s' ↔ Parser.validate o = true).
Proof.
  intros E.
  destruct (Parser.validate o) eqn:Ev; [destruct (resolves h o) eqn:Er|].
  - rewrite main_shown in E by done. discriminate E.
  - rewrite main_unresolved in E by done. injection E as <- <-. simpl.
    repeat split; try done.
    + unfold window_calls, not_found_call. by destruct (truthy (edit o)).
    + unfold not_found_call. by destruct (truthy (edit o)).
    + intros _. apply list_elem_of_further, list_elem_of_here.
  - rewrite main_invalid in E by done. injection E as <- <-. simpl.
    repeat split; try done.
    + apply window_calls_parser_errors.
    + apply added_layers_parser_errors.
    + intros [Hd|Hin]%elem_of_cons; [discriminate Hd|].
      by apply set_gui_path_not_parser_error in Hin.
Qed.

Lemma failed_run_leaves_no_trace_witness :
  let s' := final (main demo_host (mkOptions "" "" "CELL" "nowhere")
                     (start ∅)) in
  environ s' = ∅ ∧
  mapObj s' = [] ∧
  window_calls (log s') = [] ∧
  added_layers (log s') = [] ∧
  (set_gui_path ∈ log s' ↔
   Parser.validate (mkOptions "" "" "CELL" "nowhere") = true).
Proof.
  apply (failed_run_leaves_no_trace demo_host
           (mkOptions "" "" "CELL" "nowhere") ∅ 1).
  vm_compute. reflexivity.
Defined.

(** X4.  However a run ends, every environment variable other than
    [GRASS_RENDER_IMMEDIATE] has the value it had at start-up. *)
Theorem other_variables_untouched h o env0 k :
  k ≠ "GRASS_RENDER_IMMEDIATE" →
  environ (final (main h o (start env0))) !! k = env0 !! k.
Proof.
  intros Hk.
  destruct (Parser.validate o) eqn:Ev; [destruct (resolves h o) eqn:Er|].
  - rewrite main_shown by done. simpl. by apply lookup_insert_ne.
  - by rewrite main_unresolved.
  - by rewrite main_invalid.
Qed.

Lemma other_variables_untouched_witness :
  environ (final (main demo_host (mkOptions "" "" "CELL" "elev")
                    (start (<["GISBASE" := "/usr/lib/grass"]> ∅)))) !! "GISBASE"
  = Some "/usr/lib/grass".
Proof.
  rewrite (other_variables_untouched demo_host
             (mkOptions "" "" "CELL" "elev")
             (<["GISBASE" := "/usr/lib/grass"]> ∅) "GISBASE").
  - reflexivity.
  - discriminate.
Defined.

(** X5.  No run of [main] adds a layer with an empty name: the rules
    demand [create] or [edit], and an [edit] name is replaced by a lookup
    result only when that is not empty. *)
Theorem layer_name_never_empty h o env0 :
  Forall (λ l, Layer.name l ≠ "")
    (added_layers (log (final (main h o (start env0))))).
Proof.
  destruct (Parser.validate o) eqn:Ev; [destruct (resolves h o) eqn:Er|].
  - rewrite main_shown by done. simpl.
    rewrite !added_layers_app, added_layers_init. simpl.
    repeat constructor. simpl. by apply resolved_name_not_empty.
  - rewrite main_unresolved by done. simpl.
    unfold not_found_call. destruct (truthy (edit o)); constructor.
  - rewrite main_invalid by done. simpl.
    rewrite added_layers_parser_errors. constructor.
Qed.

(** ** Create mode *)

(** X6.  In create mode the new map's name goes through as given: for
    options that obey the rules and whose names resolve, with [create]
    given, the one layer added is named exactly the [create] string, and
    the map object holds that layer.  Only [base] is looked up. *)
Theorem create_mode_layer_named_as_given h o env0 :
  Parser.validate o = true → create o ≠ "" → resolves h o = true →
  ∃ s', main h o (start env0) = Return tt s' ∧
    added_layers (log s') = [raster_layer (create o) "raster"] ∧
    mapObj s' = [raster_layer (create o) "raster"].
Proof.
  intros Ev Hc Er. apply truthy_true in Hc.
  destruct (resolved_create h o Ev Hc) as [Ekw _].
  eexists. split; [by apply main_shown|]. simpl.
  rewrite Ekw. simpl.
  rewrite init_calls_create, py_or_truthy by done.
  split; reflexivity.
Qed.

Lemma create_mode_layer_named_as_given_witness :
  ∃ s', main demo_host (mkOptions "newmap" "bg" "CELL" "") (start ∅)
        = Return tt s' ∧
    added_layers (log s') = [raster_layer "newmap" "raster"] ∧
    mapObj s' = [raster_layer "newmap" "raster"].
Proof.
  apply (create_mode_layer_named_as_given demo_host
           (mkOptions "newmap" "bg" "CELL" "") ∅).
  - reflexivity.
  - discriminate.
  - reflexivity.
Defined.



(** ** Edit mode *)

(** X8.  The [type] option has no effect unless [create] is given: without
    [create], a run with another [type] ends the same way, with the same
    environment, the same layers and the same calls. *)
Theorem type_ignored_without_create h o t s :
  create o = "" → main h (with_type o t) s = main h o s.
Proof.
  intros Hc. apply truthy_false in Hc.
  assert (Parser.validate (with_type o t) = Parser.validate o) as Ev'
    by reflexivity.
  assert (resolves h (with_type o t) = resolves h o) as Er' by reflexivity.
  destruct (Parser.validate o) eqn:Ev; [destruct (resolves h o) eqn:Er|].
  - rewrite !main_shown by done.
    assert (truthy (new_map (resolved_kwargs h (with_type o t))) = false
            ∧ truthy (new_map (resolved_kwargs h o)) = false
            ∧ edit_map (resolved_kwargs h (with_type o t))
              = edit_map (resolved_kwargs h o)) as (E1 & E2 & E3).
    { unfold resolved_kwargs. simpl.
      by destruct (truthy (edit o)), (truthy (base o)). }
    rewrite !init_calls_edit, !py_or_falsy by done.
    by rewrite E3.
  - by rewrite !main_unresolved.
  - by rewrite !main_invalid.
Qed.

Lemma type_ignored_without_create_witness :
  main demo_host (mkOptions "" "" "DCELL" "elev") (start ∅)
  = main demo_host (mkOptions "" "" "CELL" "elev") (start ∅).
Proof.
  apply (type_ignored_without_create demo_host
           (mkOptions "" "" "CELL" "elev") "DCELL" (start ∅)).
  reflexivity.
Defined.

(** ** What the script reads from the host *)



(** ** The map-created signal *)

(** X10.  After any series of map-created notifications, from any state,
    the map object holds exactly the layer of the last one.  Each notification
    caused a clean, then one added layer, then one update, in the order of
    the notifications, and [os.environ] is as it was. *)
Theorem last_notification_wins ns n s :
  ∃ s', notify_all (ns ++ [n]) s = Return tt s' ∧
    mapObj s' = [notified_layer n] ∧
    environ s' = environ s ∧
    new_calls s s' = concat (map notification_calls (ns ++ [n])) ∧
    added_layers (new_calls s s') = map notified_layer (ns ++ [n]).
Proof.
  eexists. split; [apply notify_all_run|].
  rewrite new_calls_app. simpl. rewrite last_snoc.
  split; [done|]. split; [done|]. split; [done|].
  apply added_layers_notifications.
Qed.

(** X11.  The constructor subscribes [OnMapCreated] to the map-created
    signal with one call and makes no other call on that signal; whatever
    receivers the host had registered, the handler is among them
    afterwards. *)
Theorem map_created_handler_subscribed kw s :
  ∃ s', RDigitMapDisplay.__init__ kw s = Return tt s' ∧
    calls_where (on_signal mapCreated) (new_calls s s') =
      [Signal_connect mapCreated OnMapCreated_handler] ∧
    ∀ rs,
      receivers mapCreated rs (new_calls s s') =
        Signal.connect OnMapCreated_handler rs ∧
      (OnMapCreated_handler ∈ receivers mapCreated rs (new_calls s s')).
Proof.
  eexists. split; [apply init_run|].
  rewrite new_calls_app.
  assert (∀ rs, OnMapCreated_handler ∈ Signal.connect OnMapCreated_handler rs)
    as Hrs.
  { intros rs. unfold Signal.connect. case_decide; [done|].
    apply elem_of_app. right. apply list_elem_of_here. }
  destruct (truthy (new_map kw)) eqn:E.
  - rewrite init_calls_create by done.
    split; [reflexivity|]. intros rs. split; [reflexivity|]. apply Hrs.
  - rewrite init_calls_edit by done.
    split; [reflexivity|]. intros rs. split; [reflexivity|]. apply Hrs.
Qed.
